(** * discord.ui.Modal

    A shallow embedding of [src/discord/ui/modal.py]: the [Modal] container
    (construction, [add_item], [is_persistent], [to_callback_data]) and the
    class-level scan of [__init_subclass__].

    Python objects are mutable and shared, and every method may raise; the
    methods are therefore written in a state-and-exception monad over a
    [World] that holds the object tables and the operating system's
    entropy source. *)

From Stdlib Require Import ZArith Strings.Ascii Strings.String Strings.Byte.
From Stdlib Require QArith.
From stdpp Require Import base option list strings gmap.

Set Default Proof Using "Type".

(** ** Python values shared by the whole module *)

(** Object identity: the address of a Python object. *)
Definition addr := positive.

(** [Optional[float]] timeouts are only ever compared with [None] here. *)
Definition float := QArith_base.Q.

(** The exceptions that cross the methods of [modal.py].  [Wild] belongs to
    the model only: it is the outcome of following an address at which the
    tables hold no object, which no Python state allows. *)
Inductive exn :=
| ValueError (msg : string)
| TypeError (msg : string)
| AttributeError (attr : string)     (* the attribute that is missing *)
| Wild (a : addr).

(** ** Items

    Modelled from the spec: [discord.ui.Item] is imported from [.item] and
    is not part of the source.  The spec describes an Item as an element
    that exposes [is_persistent()], keeps a back-reference to the one
    container it belongs to, and is placed on one of five rows according
    to its declared width. *)
Record Item := {
  _view : option addr;            (* back-reference set by the container *)
  item_is_persistent : bool;      (* what [item.is_persistent()] reports *)
  item_row : option nat;          (* preferred row, if any *)
  item_width : nat;               (* declared width *)
  _rendered_row : option nat      (* row chosen by the allocator *)
}.

Definition set_view (v : addr) (i : Item) : Item :=
  {| _view := Some v;
     item_is_persistent := item_is_persistent i;
     item_row := item_row i;
     item_width := item_width i;
     _rendered_row := _rendered_row i |}.

(** What a Python name can be bound to when it is handed to [add_item]:
    an instance of [Item], or any other object, of which only the [repr] of
    its class matters (it ends up in the [TypeError] message). *)
Inductive Obj :=
| OItem (i : Item)
| OOther (cls : string).

(** ** The layout collaborator

    [View] (imported from [.view]) is not part of the source.  [Modal] uses
    two things of it: the row allocator behind [self.__weights], and the
    layout serializer [self.to_components()].  Both are taken as an
    interface, so that the general statements below hold for any
    realization; the realization the source has is [Shipped.layout]. *)
Class Layout := {
  weights : Type;
  components : Type;
  (** the allocator of a container without children *)
  weights_empty : weights;
  (** [self.__weights.add_item(item)]: places the item (updating the
      allocator and the item), or raises and leaves both as they were;
      whatever evaluating that line raises, a failing attribute lookup
      included, is the [inl] outcome *)
  weights_add_item : weights -> Item -> exn + (weights * Item);
  (** [self.to_components()]: reads the children, writes nothing *)
  to_components : gmap addr Obj -> list addr -> components
}.

Section World.
Context {L : Layout}.

(** ** Modal objects *)

(** The part of the state that [View.__init__] sets up. *)
Record View := {
  timeout : option float;
  children : list addr;
  view_weights : weights
}.

Record Modal := {
  base : View;
  _provided_custom_id : bool;
  title : option string;
  custom_id : string;
  row : option Z
}.

Definition with_base (v : View) (m : Modal) : Modal :=
  {| base := v;
     _provided_custom_id := _provided_custom_id m;
     title := title m;
     custom_id := custom_id m;
     row := row m |}.

Definition with_children (cs : list addr) (v : View) : View :=
  {| timeout := timeout v; children := cs; view_weights := view_weights v |}.

Definition with_weights (wt : weights) (v : View) : View :=
  {| timeout := timeout v; children := children v; view_weights := wt |}.

(** ** The world: object tables and entropy *)
Record World := {
  objs : gmap addr Obj;          (* items and other objects *)
  modals : gmap addr Modal;      (* modal objects (a Modal is a View, never an Item) *)
  entropy : nat -> byte;         (* the bytes [os.urandom] will deliver *)
  drawn : nat                    (* how many of them were consumed *)
}.

Definition with_objs (o : gmap addr Obj) (w : World) : World :=
  {| objs := o; modals := modals w; entropy := entropy w; drawn := drawn w |}.

Definition with_modals (ms : gmap addr Modal) (w : World) : World :=
  {| objs := objs w; modals := ms; entropy := entropy w; drawn := drawn w |}.

Definition with_drawn (n : nat) (w : World) : World :=
  {| objs := objs w; modals := modals w; entropy := entropy w; drawn := n |}.

(** ** The monad of Python statements

    A statement runs in a world and ends either normally with a value or by
    raising; in both cases the world it leaves behind is kept, since a raise
    does not undo earlier writes. *)
Definition M (A : Type) : Type := World -> (exn + A) * World.

Definition ret {A} (a : A) : M A := fun w => (inr a, w).

Definition raise {A} (e : exn) : M A := fun w => (inl e, w).

Definition bind {A B} (c : M A) (k : A -> M B) : M B :=
  fun w => match c w with
           | (inr a, w') => k a w'
           | (inl e, w') => (inl e, w')
           end.

End World.

Declare Scope py_scope.
Delimit Scope py_scope with py.
Notation "'let*' x ':=' c 'in' k" := (bind c (fun x => k))
  (at level 10, x name, c at level 100, k at level 200) : py_scope.
Notation "c ';;' k" := (bind c (fun _ => k))
  (at level 100, k at level 200, right associativity) : py_scope.
Open Scope py_scope.

Section Primitives.
Context {L : Layout}.

(** Reading and writing the tables. *)
Definition get_modal (self : addr) : M Modal :=
  fun w => match modals w !! self with
           | Some m => (inr m, w)
           | None => (inl (Wild self), w)
           end.

Definition put_modal (self : addr) (m : Modal) : M unit :=
  fun w => (inr tt, with_modals (<[self := m]> (modals w)) w).

Definition get_obj (a : addr) : M Obj :=
  fun w => match objs w !! a with
           | Some o => (inr o, w)
           | None => (inl (Wild a), w)
           end.

Definition put_obj (a : addr) (o : Obj) : M unit :=
  fun w => (inr tt, with_objs (<[a := o]> (objs w)) w).

(** [os.urandom(n)]: the next [n] bytes of the entropy source. *)
Definition urandom (n : nat) : M (list byte) :=
  fun w => (inr (map (entropy w) (seq (drawn w) n)), with_drawn (drawn w + n) w).

End Primitives.

(** ** [bytes.hex()] *)

Definition hexdigits : list ascii := list_ascii_of_string "0123456789abcdef".

Definition hexdigit (n : nat) : ascii := nth n hexdigits "0"%char.

(** Two digits per byte, high nibble first. *)
Fixpoint hex (bs : list byte) : string :=
  match bs with
  | [] => EmptyString
  | b :: bs' =>
      let n := N.to_nat (Byte.to_N b) in
      String (hexdigit (n / 16)) (String (hexdigit (n mod 16)) (hex bs'))
  end.

(** The value of a character read as a lowercase hexadecimal digit, from
    its code: ['0'] to ['9'] are 48 to 57, ['a'] to ['f'] are 97 to 102. *)
Definition digit_value (c : ascii) : option nat :=
  let n := nat_of_ascii c in
  if (48 <=? n) && (n <=? 57) then Some (n - 48)
  else if (97 <=? n) && (n <=? 102) then Some (n - 87)
  else None.

Definition is_lower_hex (c : ascii) : bool :=
  match digit_value c with
  | Some _ => true
  | None => false
  end.

(** Reading a string of lowercase hexadecimal digits back into bytes, two
    digits per byte, high nibble first. *)
Fixpoint fromhex (s : string) : option (list byte) :=
  match s with
  | EmptyString => Some []
  | String _ EmptyString => None
  | String hi (String lo rest) =>
      match digit_value hi, digit_value lo, fromhex rest with
      | Some h, Some l, Some bs =>
          match Byte.of_N (N.of_nat (16 * h + l)) with
          | Some b => Some (b :: bs)
          | None => None
          end
      | _, _, _ => None
      end
  end.

(** The value of a hexadecimal digit: its position among the digits. *)
Definition hexval (c : ascii) : nat :=
  default 0 (fst <$> list_find (fun d => d = c) hexdigits).

Section Methods.
Context {L : Layout}.

(** ** [Modal.__init__] *)

(** Modelled from the spec: [View.__init__] is not part of the source; the
    spec says it "initializes base container state with the given timeout",
    that is, a container without children whose allocator is empty. *)
Definition View__init__ (timeout : option float) : View :=
  {| timeout := timeout; children := []; view_weights := weights_empty |}.

(** The keyword arguments of the constructor.  [MISSING] is [None] for
    [custom_id] and [children]; [title], [row] and [timeout] are Python
    optionals of their own. *)
Record kwargs := {
  kw_timeout : option float;
  kw_title : option string;
  kw_custom_id : option string;
  kw_row : option Z;
  kw_children : option (list addr)
}.

(** The defaults of the signature: [timeout=180], [title=None],
    [custom_id=MISSING], [row=None], [children=MISSING]. *)
Definition default_kwargs : kwargs :=
  {| kw_timeout := Some (QArith_base.Qmake 180 1);
     kw_title := None;
     kw_custom_id := None;
     kw_row := None;
     kw_children := None |}.

(** [self.children.extend(cs)] *)
Definition children_extend (self : addr) (cs : list addr) : M unit :=
  let* m := get_modal self in
  put_modal self (with_base (with_children (children (base m) ++ cs) (base m)) m).

Definition __init__ (self : addr) (kw : kwargs) : M unit :=
  (* super().__init__(timeout=timeout) *)
  let v := View__init__ (kw_timeout kw) in
  (* self._provided_custom_id = custom_id is not MISSING *)
  let provided := match kw_custom_id kw with Some _ => true | None => false end in
  (* self.custom_id = os.urandom(16).hex() if custom_id is MISSING else custom_id *)
  let* cid := match kw_custom_id kw with
              | None => let* bs := urandom 16 in ret (hex bs)
              | Some c => ret c
              end in
  put_modal self {| base := v;
                    _provided_custom_id := provided;
                    title := kw_title kw;
                    custom_id := cid;
                    row := kw_row kw |} ;;
  (* if children is not MISSING: self.children.extend(children) *)
  match kw_children kw with
  | Some cs => children_extend self cs
  | None => ret tt
  end.

(** Calling the class: a new object, then [__init__] on it. *)
Definition Modal_new (kw : kwargs) : M addr :=
  fun w =>
    let self := fresh (dom (modals w)) in
    (let* _ := __init__ self kw in ret self) w.

(** ** [Modal.add_item] *)

(** [self.children.append(item)] *)
Definition children_append (self item : addr) : M unit :=
  let* m := get_modal self in
  put_modal self (with_base (with_children (children (base m) ++ [item]) (base m)) m).

Definition add_item (self item : addr) : M unit :=
  let* m := get_modal self in
  (* if len(self.children) > 5: raise ValueError(...) *)
  if (5 <? length (children (base m)))%nat
  then raise (ValueError "maximum number of children exceeded")
  else
    let* o := get_obj item in
    match o with
    | OOther cls =>
        (* if not isinstance(item, Item): raise TypeError(...) *)
        raise (TypeError ("expected Item not " +:+ cls))
    | OItem i =>
        (* self.__weights.add_item(item) *)
        match weights_add_item (view_weights (base m)) i with
        | inl e => raise e
        | inr (wt, i') =>
            put_modal self (with_base (with_weights wt (base m)) m) ;;
            (* item._view = self *)
            put_obj item (OItem (set_view self i')) ;;
            (* self.children.append(item) *)
            children_append self item
        end
    end.

(** ** [Modal.is_persistent] *)

(** [item.is_persistent()] *)
Definition Item_is_persistent (item : addr) : M bool :=
  let* o := get_obj item in
  match o with
  | OItem i => ret (item_is_persistent i)
  | OOther cls => raise (AttributeError "is_persistent")
  end.

(** [all(item.is_persistent() for item in cs)]: stops at the first child
    that answers [False]. *)
Fixpoint all_persistent (cs : list addr) : M bool :=
  match cs with
  | [] => ret true
  | c :: cs' =>
      let* b := Item_is_persistent c in
      if b then all_persistent cs' else ret false
  end.

(** [self.timeout is None and self._provided_custom_id and all(...)] *)
Definition is_persistent (self : addr) : M bool :=
  let* m := get_modal self in
  match timeout (base m) with
  | Some _ => ret false
  | None =>
      if _provided_custom_id m
      then all_persistent (children (base m))
      else ret false
  end.

(** ** [Modal.to_callback_data] *)

(** The values of the payload dictionary. *)
Inductive value :=
| VStr (s : string)
| VComponents (c : components).

(** [self.to_components()] *)
Definition View_to_components (self : addr) : M components :=
  let* m := get_modal self in
  fun w => (inr (to_components (objs w) (children (base m))), w).

Definition to_callback_data (self : addr) : M (gmap string value) :=
  let* m := get_modal self in
  let* comps := View_to_components self in
  (* payload = {'custom_id': self.custom_id, 'components': self.to_components()} *)
  let payload : gmap string value :=
    {[ "custom_id" := VStr (custom_id m); "components" := VComponents comps ]} in
  (* if self.title is not None: payload['title'] = self.title *)
  let payload :=
    match title m with
    | Some t => <["title" := VStr t]> payload
    | None => payload
    end in
  ret payload.

End Methods.

(** ** [Modal.__init_subclass__]

    The hook runs when a subclass of [Modal] is defined and sees the
    method resolution order of the new class.  A class is represented by
    its own [__dict__], in insertion order; a member is any object, of which
    the hook only asks whether it has the attribute that the modal decorator
    sets. *)
Module Registration.

Record Member := {
  member_qualname : string;
  member_attrs : list string
}.

Record PyClass := {
  cls_name : string;
  cls_dict : list (string * Member)
}.

Definition hasattr (m : Member) (a : string) : bool :=
  bool_decide (a ∈ member_attrs m).

Definition model_type : string := "__discord_ui_model_type__".

(** for member in base.__dict__.values():
        if hasattr(member, '__discord_ui_model_type__'):
            children.append(member) *)
Definition scan_class (children : list Member) (base : PyClass) : list Member :=
  fold_left
    (fun children member =>
       if hasattr member model_type then children ++ [member] else children)
    (map snd (cls_dict base)) children.

(** for base in reversed(cls.__mro__): ... *)
Definition scan_mro (mro : list PyClass) : list Member :=
  fold_left scan_class (rev mro) [].

(** The result is what the hook stores in [cls.__view_children_items__];
    a raise leaves the class undefined. *)
Definition __init_subclass__ (mro : list PyClass) : exn + list Member :=
  let children := scan_mro mro in
  if (5 <? length children)%nat
  then inl (TypeError "View cannot have more than 5 children")
  else inr children.

(** The tagged entries a class declares itself, with their names. *)
Definition tagged_entries (c : PyClass) : list (string * Member) :=
  filter (fun e => hasattr e.2 model_type = true) (cls_dict c).

(** How many tagged members the whole chain declares. *)
Definition tagged_count (mro : list PyClass) : nat :=
  sum_list_with (fun c => length (tagged_entries c)) mro.

(** The collection as the spec words it: "an ordered mapping keyed by member
    name so subclass overrides replace (not duplicate) ancestor entries".
    Assigning to a key that is present keeps its position, as in a Python
    dictionary. *)
Fixpoint mapping_set (name : string) (m : Member) (d : list (string * Member))
  : list (string * Member) :=
  match d with
  | [] => [(name, m)]
  | (k, v) :: d' =>
      if String.eqb k name then (k, m) :: d' else (k, v) :: mapping_set name m d'
  end.

Definition spec_scan_mro (mro : list PyClass) : list (string * Member) :=
  fold_left
    (fun d base =>
       fold_left
         (fun d e => if hasattr e.2 model_type then mapping_set e.1 e.2 d else d)
         (cls_dict base) d)
    (rev mro) [].


(** *** Sample classes *)

Definition callback (qualname : string) : Member :=
  {| member_qualname := qualname;
     member_attrs := ["__discord_ui_model_type__"; "__discord_ui_model_kwargs__"] |}.

Definition method (qualname : string) : Member :=
  {| member_qualname := qualname; member_attrs := [] |}.

Definition object_cls : PyClass :=
  {| cls_name := "object"; cls_dict := [("__repr__", method "object.__repr__")] |}.

Definition View_cls : PyClass :=
  {| cls_name := "View";
     cls_dict := [("to_components", method "View.to_components")] |}.

Definition Modal_cls : PyClass :=
  {| cls_name := "Modal";
     cls_dict := [("add_item", method "Modal.add_item");
                  ("is_persistent", method "Modal.is_persistent")] |}.

(** class Survey(Modal), with three callbacks *)
Definition Survey : PyClass :=
  {| cls_name := "Survey";
     cls_dict := [("ask_name", callback "Survey.ask_name");
                  ("ask_age", callback "Survey.ask_age");
                  ("helper", method "Survey.helper");
                  ("ask_city", callback "Survey.ask_city")] |}.

(** class Five(Survey), with two more callbacks *)
Definition Five : PyClass :=
  {| cls_name := "Five";
     cls_dict := [("ask_job", callback "Five.ask_job");
                  ("ask_pet", callback "Five.ask_pet")] |}.

(** class Six(Survey), with three more callbacks *)
Definition Six : PyClass :=
  {| cls_name := "Six";
     cls_dict := [("ask_job", callback "Six.ask_job");
                  ("ask_pet", callback "Six.ask_pet");
                  ("ask_car", callback "Six.ask_car")] |}.

(** class Redo(Survey), which overrides one callback of Survey *)
Definition Redo : PyClass :=
  {| cls_name := "Redo";
     cls_dict := [("ask_name", callback "Redo.ask_name")] |}.

(** class Again(Survey), which overrides the three callbacks of Survey *)
Definition Again : PyClass :=
  {| cls_name := "Again";
     cls_dict := [("ask_name", callback "Again.ask_name");
                  ("ask_age", callback "Again.ask_age");
                  ("ask_city", callback "Again.ask_city")] |}.

(** The method resolution order of a direct subclass of Survey. *)
Definition mro_of (c : PyClass) : list PyClass :=
  [c; Survey; Modal_cls; View_cls; object_cls].

End Registration.

(** ** The layout collaborator as the source reaches it

    Line 145 reads [self.__weights] in the body of [class Modal].  Python
    mangles a name of that form with the name of the class it is written
    in, so the attribute that is looked up is [_Modal__weights].  No line
    of [modal.py] assigns it ([View] keeps its allocator under its own
    mangled name), so for every item the statement raises
    [AttributeError] before any allocator is reached; the allocator has no
    state that [Modal] can see.

    Modelled from the spec: [View.to_components] is not part of the
    source; the spec describes it as the "row-grouped representation of all
    children", over five rows. *)
Module Shipped.

(** [self.__weights.add_item(item)], as written in [class Modal] *)
Definition add_item (wt : unit) (i : Item) : exn + (unit * Item) :=
  inl (AttributeError "_Modal__weights").

Definition row_of (objs : gmap addr Obj) (a : addr) : nat :=
  match objs !! a with
  | Some (OItem i) => default 0 (_rendered_row i)
  | _ => 0
  end.

Definition to_components (objs : gmap addr Obj) (cs : list addr) : list (list addr) :=
  filter (fun g => g <> [])
    (map (fun r => filter (fun a => row_of objs a = r) cs) (seq 0 5)).

Definition layout : Layout :=
  Build_Layout unit (list (list addr)) tt add_item to_components.

End Shipped.

(** ** Vocabulary of the statements *)
Section Vocabulary.
Context {L : Layout}.
Implicit Types (w : World) (m : Modal) (self item : addr).

(** The world after a successful [add_item]. *)
Definition added self item m (wt : weights) (i' : Item) w : World :=
  {| objs := <[item := OItem (set_view self i')]> (objs w);
     modals :=
       <[self := with_base
                   (with_children (children (base m) ++ [item])
                      (with_weights wt (base m))) m]> (modals w);
     entropy := entropy w;
     drawn := drawn w |}.

(** The identifier the constructor settles on. *)
Definition chosen_custom_id (kw : kwargs) w : string :=
  match kw_custom_id kw with
  | Some c => c
  | None => hex (map (entropy w) (seq (drawn w) 16))
  end.

(** The object the constructor leaves at [self]. *)
Definition constructed (kw : kwargs) w : Modal :=
  {| base := {| timeout := kw_timeout kw;
                children := default [] (kw_children kw);
                view_weights := weights_empty |};
     _provided_custom_id :=
       match kw_custom_id kw with Some _ => true | None => false end;
     title := kw_title kw;
     custom_id := chosen_custom_id kw w;
     row := kw_row kw |}.

(** The world after the constructor. *)
Definition constructed_world (kw : kwargs) w : World :=
  {| objs := objs w;
     modals := <[fresh (dom (modals w)) := constructed kw w]> (modals w);
     entropy := entropy w;
     drawn := match kw_custom_id kw with
              | Some _ => drawn w
              | None => drawn w + 16
              end |}.

(** A child is well typed when it is an [Item], as the annotation
    [List[Item]] of [children] says. *)
Definition is_Item w (c : addr) : Prop :=
  exists i, objs w !! c = Some (OItem i).

(** A child whose [is_persistent()] answers [True]. *)
Definition persistent_child w (c : addr) : Prop :=
  exists i, objs w !! c = Some (OItem i) /\ item_is_persistent i = true.

(** A title that is a string with at least one character. *)
Definition title_nonempty (t : option string) : Prop :=
  match t with
  | Some s => s <> EmptyString
  | None => False
  end.

(** No modal of the world holds more than [n] children. *)
Definition at_most (n : nat) w : Prop :=
  forall a m, modals w !! a = Some m -> (length (children (base m)) <= n)%nat.

(** The operations of a client: construct a modal, add an item to one. *)
Inductive op :=
| New (kw : kwargs)
| Add (self item : addr).

(** The world an operation leaves, whether it returns or raises. *)
Definition step w (o : op) : World :=
  match o with
  | New kw => snd (Modal_new kw w)
  | Add self item => snd (add_item self item w)
  end.

(** An operation that hands no children to the constructor. *)
Definition no_initial_children (o : op) : Prop :=
  match o with
  | New kw => kw_children kw = None
  | Add _ _ => True
  end.

(** Construction as the spec words it: "each is appended via the same path
    as addItem". *)
Fixpoint spec_add_children (self : addr) (cs : list addr) : M unit :=
  match cs with
  | [] => ret tt
  | c :: cs' => add_item self c ;; spec_add_children self cs'
  end.

End Vocabulary.

(** ** Sample objects *)
Module Sample.

(** An item one column wide, not yet attached to a container. *)
Definition button : Item :=
  {| _view := None;
     item_is_persistent := true;
     item_row := None;
     item_width := 1;
     _rendered_row := None |}.

(** An item that does not survive a restart. *)
Definition volatile : Item :=
  {| _view := None;
     item_is_persistent := false;
     item_row := None;
     item_width := 1;
     _rendered_row := None |}.

Definition some_bytes (n : nat) : byte :=
  nth n [x0b; x30; x55; x7a; x9f; xc4; xe9; x0e;
         x33; x58; x7d; xa2; xc7; xec; x11; x36] x00.

(** Seven buttons at addresses 1 to 7, a string at address 8, a volatile
    item at address 9, and no modal yet. *)
Definition world0 : @World Shipped.layout :=
  {| objs := list_to_map
               [(1%positive, OItem button); (2%positive, OItem button);
                (3%positive, OItem button); (4%positive, OItem button);
                (5%positive, OItem button); (6%positive, OItem button);
                (7%positive, OItem button); (8%positive, OOther "<class 'str'>");
                (9%positive, OItem volatile)];
     modals := ∅;
     entropy := some_bytes;
     drawn := 0 |}.

(** A modal object with the given children, title and timeout, whose
    identifier was provided or not. *)
Definition modal_with (cs : list addr) (t : option string) (tmo : option float)
    (provided : bool) : @Modal Shipped.layout :=
  {| base := {| timeout := tmo; children := cs;
                view_weights := @weights_empty Shipped.layout |};
     _provided_custom_id := provided;
     title := t;
     custom_id := "order-form";
     row := None |}.

(** [world0] with one modal at address 1. *)
Definition world_with (m : @Modal Shipped.layout) : @World Shipped.layout :=
  {| objs := objs world0;
     modals := {[ 1%positive := m ]};
     entropy := some_bytes;
     drawn := 0 |}.

Definition kwargs_children (cs : list addr) : kwargs :=
  {| kw_timeout := Some (QArith_base.Qmake 180 1);
     kw_title := None;
     kw_custom_id := None;
     kw_row := None;
     kw_children := Some cs |}.

(** modal = Modal(); then one [add_item] per child, in order *)
Definition build_by_add_item (cs : list addr) : M (L := Shipped.layout) addr :=
  let* self := Modal_new default_kwargs in
  spec_add_children self cs ;;
  ret self.

(** modal = Modal(children=cs) *)
Definition build_by_constructor (cs : list addr) : M (L := Shipped.layout) addr :=
  Modal_new (kwargs_children cs).

(** The children of the modal at address 1, if there is one. *)
Definition children_at_1 (w : @World Shipped.layout) : option (list addr) :=
  match modals w !! 1%positive with
  | Some m => Some (children (base m))
  | None => None
  end.

(** The back-reference of the item at an address, if there is one. *)
Definition view_of (w : @World Shipped.layout) (a : addr) : option (option addr) :=
  match objs w !! a with
  | Some (OItem i) => Some (_view i)
  | _ => None
  end.

(** The world after modal = Modal(children=[i1, ..., i5]). *)
Definition five_children : @World Shipped.layout :=
  snd (build_by_constructor [1; 2; 3; 4; 5]%positive world0).

(** The world after modal = Modal(children=[i1, ..., i4]). *)
Definition four_children : @World Shipped.layout :=
  snd (build_by_constructor [1; 2; 3; 4]%positive world0).

(** The world after modal = Modal(children=[i1, ..., i6]). *)
Definition six_children : @World Shipped.layout :=
  snd (build_by_constructor [1; 2; 3; 4; 5; 6]%positive world0).

(** The world after modal = Modal(children=[i1, ..., i7]). *)
Definition seven_children : @World Shipped.layout :=
  snd (build_by_constructor [1; 2; 3; 4; 5; 6; 7]%positive world0).

End Sample.

(** * Properties *)

(** ** Running statements *)
Section Running.
Context {L : Layout}.
Implicit Types (w : World) (m : Modal) (self item : addr).

Lemma bind_inr {A B} (c : M A) (k : A -> M B) w a w' :
  c w = (inr a, w') -> bind c k w = k a w'.
Proof. unfold bind. now intros ->. Qed.

Lemma bind_inl {A B} (c : M A) (k : A -> M B) w e w' :
  c w = (inl e, w') -> bind c k w = (inl e, w').
Proof. unfold bind. now intros ->. Qed.

Lemma get_modal_Some self w m :
  modals w !! self = Some m -> get_modal self w = (inr m, w).
Proof. unfold get_modal. now intros ->. Qed.

Lemma get_modal_None self w :
  modals w !! self = None -> get_modal self w = (inl (Wild self), w).
Proof. unfold get_modal. now intros ->. Qed.

Lemma get_obj_Some item w o :
  objs w !! item = Some o -> get_obj item w = (inr o, w).
Proof. unfold get_obj. now intros ->. Qed.

Lemma get_obj_None item w :
  objs w !! item = None -> get_obj item w = (inl (Wild item), w).
Proof. unfold get_obj. now intros ->. Qed.

End Running.

Ltac run_get :=
  repeat first
    [ erewrite (bind_inr (get_modal _)) by (apply get_modal_Some; eassumption)
    | erewrite (bind_inr (get_obj _)) by (apply get_obj_Some; eassumption)
    | erewrite (bind_inl (get_modal _)) by (apply get_modal_None; eassumption)
    | erewrite (bind_inl (get_obj _)) by (apply get_obj_None; eassumption) ].

(** ** [add_item], path by path *)
Section AddItem.
Context {L : Layout}.
Implicit Types (w : World) (m : Modal) (self item : addr).

Lemma add_item_full self item w m :
  modals w !! self = Some m ->
  (5 < length (children (base m)))%nat ->
  add_item self item w =
    (inl (ValueError "maximum number of children exceeded"), w).
Proof.
  intros Hm Hlen. unfold add_item. run_get.
  apply Nat.ltb_lt in Hlen. now rewrite Hlen.
Qed.

Lemma add_item_wild self item w m :
  modals w !! self = Some m ->
  (length (children (base m)) <= 5)%nat ->
  objs w !! item = None ->
  add_item self item w = (inl (Wild item), w).
Proof.
  intros Hm Hlen Ho. unfold add_item. run_get.
  apply Nat.ltb_ge in Hlen. rewrite Hlen. now run_get.
Qed.

Lemma add_item_not_Item self item w m cls :
  modals w !! self = Some m ->
  (length (children (base m)) <= 5)%nat ->
  objs w !! item = Some (OOther cls) ->
  add_item self item w = (inl (TypeError ("expected Item not " +:+ cls)), w).
Proof.
  intros Hm Hlen Ho. unfold add_item. run_get.
  apply Nat.ltb_ge in Hlen. rewrite Hlen. now run_get.
Qed.

Lemma add_item_refused self item w m i e :
  modals w !! self = Some m ->
  (length (children (base m)) <= 5)%nat ->
  objs w !! item = Some (OItem i) ->
  weights_add_item (view_weights (base m)) i = inl e ->
  add_item self item w = (inl e, w).
Proof.
  intros Hm Hlen Ho Hw. unfold add_item. run_get.
  apply Nat.ltb_ge in Hlen. rewrite Hlen. run_get. cbv beta iota. now rewrite Hw.
Qed.

Lemma add_item_placed self item w m i wt i' :
  modals w !! self = Some m ->
  (length (children (base m)) <= 5)%nat ->
  objs w !! item = Some (OItem i) ->
  weights_add_item (view_weights (base m)) i = inr (wt, i') ->
  add_item self item w = (inr tt, added self item m wt i' w).
Proof.
  intros Hm Hlen Ho Hw. unfold add_item. run_get.
  apply Nat.ltb_ge in Hlen. rewrite Hlen. run_get. cbv beta iota. rewrite Hw.
  unfold children_append, added.
  cbv [bind put_modal put_obj get_modal with_objs with_modals objs modals].
  rewrite lookup_insert_eq. cbn. now rewrite insert_insert_eq.
Qed.

(** [add_item] touches no other modal. *)
Lemma add_item_outcome self item w :
  snd (add_item self item w) = w \/
  exists m wt i',
    modals w !! self = Some m /\
    (length (children (base m)) <= 5)%nat /\
    snd (add_item self item w) = added self item m wt i' w.
Proof.
  destruct (modals w !! self) as [m|] eqn:Hm.
  2:{ left. unfold add_item. now run_get. }
  destruct (decide (5 < length (children (base m)))%nat) as [Hfull|Hroom].
  { left. now rewrite (add_item_full _ _ _ _ Hm Hfull). }
  assert (length (children (base m)) <= 5)%nat as Hle by lia.
  destruct (objs w !! item) as [[i|cls]|] eqn:Ho.
  - destruct (weights_add_item (view_weights (base m)) i) as [e|[wt i']] eqn:Hw.
    + left. now rewrite (add_item_refused _ _ _ _ _ _ Hm Hle Ho Hw).
    + right. exists m, wt, i'.
      now rewrite (add_item_placed _ _ _ _ _ _ _ Hm Hle Ho Hw).
  - left. now rewrite (add_item_not_Item _ _ _ _ _ Hm Hle Ho).
  - left. now rewrite (add_item_wild _ _ _ _ Hm Hle Ho).
Qed.

Lemma add_item_keeps_six self item w :
  at_most 6 w -> at_most 6 (snd (add_item self item w)).
Proof.
  intros Hw.
  destruct (add_item_outcome self item w)
    as [->|(m & wt & i' & Hm & Hle & ->)]; [exact Hw|].
  intros a m' Ha. cbn in Ha.
  destruct (decide (a = self)) as [->|Hne].
  - rewrite lookup_insert_eq in Ha. injection Ha as <-.
    cbn. rewrite length_app. cbn. lia.
  - rewrite lookup_insert_ne in Ha by congruence. now apply (Hw a).
Qed.

End AddItem.

(** ** Order of the checks in [add_item] *)
Section AddItemOrder.
Context {L : Layout}.
Implicit Types (w : World) (m : Modal) (self item : addr).

(** C10.  In [add_item] the capacity check runs before the type check:
    when the container already holds more than five children the call
    raises the [ValueError] for every argument, whether it is an [Item] or
    not, and leaves the world as it was; a [TypeError] comes out only when
    the capacity check has passed, and then an argument that is not an
    [Item] does raise it. *)
Theorem add_item_capacity_before_type self item w m :
  modals w !! self = Some m ->
  ((5 < length (children (base m)))%nat ->
     add_item self item w =
       (inl (ValueError "maximum number of children exceeded"), w))
  /\ (forall msg w', add_item self item w = (inl (TypeError msg), w') ->
        (length (children (base m)) <= 5)%nat)
  /\ (forall cls, (length (children (base m)) <= 5)%nat ->
        objs w !! item = Some (OOther cls) ->
        add_item self item w =
          (inl (TypeError ("expected Item not " +:+ cls)), w)).
Proof.
  intros Hm. split; [|split].
  - intros Hfull. now apply add_item_full with m.
  - intros msg w' Hrun.
    destruct (decide (5 < length (children (base m)))%nat) as [Hfull|Hroom]; [|lia].
    rewrite (add_item_full _ _ _ _ Hm Hfull) in Hrun. discriminate.
  - intros cls Hroom Ho. now apply add_item_not_Item with m.
Qed.

End AddItemOrder.

Lemma add_item_capacity_before_type_witness :
  add_item 1%positive 8%positive
    (Sample.world_with
       (Sample.modal_with
          [1; 2; 3; 4; 5; 6]%positive None None true)) =
    (inl (ValueError "maximum number of children exceeded"),
     Sample.world_with
       (Sample.modal_with
          [1; 2; 3; 4; 5; 6]%positive None None true)).
Proof.
  destruct (add_item_capacity_before_type (L := Shipped.layout)
              1%positive 8%positive
              (Sample.world_with
                 (Sample.modal_with
                    [1; 2; 3; 4; 5; 6]%positive None None true))
              (Sample.modal_with [1; 2; 3; 4; 5; 6]%positive None None true)
              eq_refl) as [Hfull _].
  apply Hfull. cbn. lia.
Defined.

(** ** [is_persistent] *)
Section Persistence.
Context {L : Layout}.
Implicit Types (w : World) (m : Modal) (self item : addr).

Lemma Item_is_persistent_run c w i :
  objs w !! c = Some (OItem i) ->
  Item_is_persistent c w = (inr (item_is_persistent i), w).
Proof. intros Ho. unfold Item_is_persistent. now run_get. Qed.

Lemma all_persistent_run cs w :
  Forall (is_Item w) cs ->
  exists b, all_persistent cs w = (inr b, w) /\
            (b = true <-> Forall (persistent_child w) cs).
Proof.
  induction 1 as [|c cs [i Hi] _ IH].
  - exists true. split; [reflexivity|]. split; [constructor|reflexivity].
  - cbn [all_persistent].
    rewrite (bind_inr _ _ _ _ _ (Item_is_persistent_run _ _ _ Hi)).
    destruct (item_is_persistent i) eqn:Hp.
    + destruct IH as (b & Hrun & Hb). exists b. split; [exact Hrun|].
      rewrite Hb. split.
      * intros Hall. constructor; [|exact Hall]. exists i. now split.
      * intros Hall. now inversion Hall.
    + exists false. split; [reflexivity|]. split; [discriminate|].
      intros Hall. inversion Hall as [|? ? (i' & Hi' & Hp') _]; subst.
      congruence.
Qed.

(** C4.  [is_persistent()] answers [True] exactly when no timeout is
    configured, the [custom_id] was supplied by the caller and every
    child's [is_persistent()] answers [True]; otherwise it answers
    [False].  It changes nothing. *)
Theorem is_persistent_iff self w m :
  modals w !! self = Some m ->
  Forall (is_Item w) (children (base m)) ->
  exists b, is_persistent self w = (inr b, w) /\
    (b = true <->
       timeout (base m) = None /\
       _provided_custom_id m = true /\
       Forall (persistent_child w) (children (base m))).
Proof.
  intros Hm Hty. unfold is_persistent. run_get.
  destruct (timeout (base m)) as [t|] eqn:Ht.
  { exists false. split; [reflexivity|]. split; [discriminate|].
    now intros [? _]. }
  destruct (_provided_custom_id m) eqn:Hp.
  - destruct (all_persistent_run _ _ Hty) as (b & Hrun & Hb).
    exists b. split; [exact Hrun|]. rewrite Hb. tauto.
  - exists false. split; [reflexivity|]. split; [discriminate|].
    now intros (_ & ? & _).
Qed.

End Persistence.

Lemma is_persistent_iff_witness :
  exists b,
    is_persistent 1%positive
      (Sample.world_with (Sample.modal_with [1; 2]%positive None None true)) =
      (inr b,
       Sample.world_with (Sample.modal_with [1; 2]%positive None None true)) /\
    (b = true <->
       timeout (base (Sample.modal_with [1; 2]%positive None None true)) = None /\
       _provided_custom_id (Sample.modal_with [1; 2]%positive None None true) = true /\
       Forall
         (persistent_child
            (Sample.world_with (Sample.modal_with [1; 2]%positive None None true)))
         (children (base (Sample.modal_with [1; 2]%positive None None true)))).
Proof.
  apply (is_persistent_iff (L := Shipped.layout) 1%positive
           (Sample.world_with (Sample.modal_with [1; 2]%positive None None true))
           (Sample.modal_with [1; 2]%positive None None true)).
  - reflexivity.
  - repeat constructor; exists Sample.button; reflexivity.
Defined.

(** ** [to_callback_data] *)
Section Payload.
Context {L : Layout}.
Implicit Types (w : World) (m : Modal) (self item : addr).

Lemma View_to_components_run self w m :
  modals w !! self = Some m ->
  View_to_components self w =
    (inr (to_components (objs w) (children (base m))), w).
Proof. intros Hm. unfold View_to_components. now run_get. Qed.

Lemma to_callback_data_run self w m :
  modals w !! self = Some m ->
  to_callback_data self w =
    (inr (let payload : gmap string value :=
            {[ "custom_id" := VStr (custom_id m);
               "components" :=
                 VComponents (to_components (objs w) (children (base m))) ]} in
          match title m with
          | Some t => <["title" := VStr t]> payload
          | None => payload
          end), w).
Proof.
  intros Hm. unfold to_callback_data. run_get.
  now rewrite (bind_inr _ _ _ _ _ (View_to_components_run _ _ _ Hm)).
Qed.

Lemma to_callback_data_wild self w :
  modals w !! self = None ->
  to_callback_data self w = (inl (Wild self), w).
Proof. intros Hm. unfold to_callback_data. now run_get. Qed.

(** C5, as the code has it.  The payload always holds [custom_id] (the
    identifier of the modal) and [components] (what the layout serializer
    yields for the children), and it holds [title] exactly when the title
    is not [None], with the title as its value: a title that is the empty
    string is written out like any other.  Nothing else is in the payload,
    and the world is left as it was. *)
Theorem to_callback_data_keys self w m :
  modals w !! self = Some m ->
  exists p, to_callback_data self w = (inr p, w) /\
    p !! "custom_id" = Some (VStr (custom_id m)) /\
    p !! "components" =
      Some (VComponents (to_components (objs w) (children (base m)))) /\
    p !! "title" = VStr <$> title m /\
    (is_Some (p !! "title") <-> title m <> None) /\
    (forall k, is_Some (p !! k) ->
       k = "custom_id" \/ k = "components" \/ k = "title").
Proof.
  intros Hm. eexists. split; [exact (to_callback_data_run _ _ _ Hm)|].
  cbv zeta. destruct (title m) as [t|]; cbn [fmap option_fmap option_map].
  all: repeat split; try (simplify_map_eq; done); try congruence.
  all: try (intros [v Hv]; simplify_map_eq; done).
  all: intros k [v Hk].
  all: destruct (decide (k = "title")) as [->|]; [tauto|].
  all: destruct (decide (k = "custom_id")) as [->|]; [tauto|].
  all: destruct (decide (k = "components")) as [->|]; [tauto|].
  all: simplify_map_eq.
Qed.

(** C8.  [to_callback_data()] writes nothing and is deterministic: the world
    after the call is the world before it, so every field of the modal, of
    its children and the entropy source are as they were (no bytes are
    drawn), and a second call gives the same outcome as the first. *)
Theorem to_callback_data_pure self w :
  snd (to_callback_data self w) = w /\
  modals (snd (to_callback_data self w)) !! self = modals w !! self /\
  drawn (snd (to_callback_data self w)) = drawn w /\
  to_callback_data self (snd (to_callback_data self w)) =
    to_callback_data self w.
Proof.
  assert (snd (to_callback_data self w) = w) as Hsame.
  { destruct (modals w !! self) as [m|] eqn:Hm.
    - now rewrite (to_callback_data_run _ _ _ Hm).
    - now rewrite (to_callback_data_wild _ _ Hm). }
  now rewrite !Hsame.
Qed.

End Payload.

Lemma to_callback_data_keys_witness :
  exists p,
    to_callback_data 1%positive
      (Sample.world_with
         (Sample.modal_with [1; 2]%positive (Some "Form") None true)) =
      (inr p,
       Sample.world_with
         (Sample.modal_with [1; 2]%positive (Some "Form") None true)) /\
    p !! "title" = Some (VStr "Form").
Proof.
  destruct (to_callback_data_keys (L := Shipped.layout) 1%positive
              (Sample.world_with
                 (Sample.modal_with [1; 2]%positive (Some "Form") None true))
              (Sample.modal_with [1; 2]%positive (Some "Form") None true)
              eq_refl) as (p & Hrun & _ & _ & Htitle & _).
  exists p. split; [exact Hrun | exact Htitle].
Defined.

(** C5, as the claim words it, fails for the empty title: the title is empty
    and the payload has the key all the same. *)
Lemma to_callback_data_empty_title :
  exists p,
    to_callback_data 1%positive
      (Sample.world_with
         (Sample.modal_with [1; 2]%positive (Some EmptyString) None true)) =
      (inr p,
       Sample.world_with
         (Sample.modal_with [1; 2]%positive (Some EmptyString) None true)) /\
    p !! "title" = Some (VStr EmptyString) /\
    ~ (is_Some (p !! "title") <->
       title_nonempty
         (title (Sample.modal_with [1; 2]%positive (Some EmptyString) None true))).
Proof.
  eexists. split; [reflexivity|]. split; [reflexivity|].
  intros [Hkey _]. apply Hkey; [|reflexivity]. now eexists.
Qed.

(** ** Hexadecimal identifiers *)

Lemma hex_length bs : String.length (hex bs) = 2 * length bs.
Proof. induction bs as [|b bs IH]; cbn; [reflexivity | rewrite IH; lia]. Qed.

Lemma digit_value_hexdigit n : n < 16 -> digit_value (hexdigit n) = Some n.
Proof.
  intros Hn. do 16 (destruct n as [|n]; [reflexivity|]). lia.
Qed.

Lemma hexdigit_lower n : n < 16 -> is_lower_hex (hexdigit n) = true.
Proof.
  intros Hn. unfold is_lower_hex. now rewrite digit_value_hexdigit.
Qed.

Lemma hex_lower bs :
  Forall (fun c => is_lower_hex c = true) (list_ascii_of_string (hex bs)).
Proof.
  induction bs as [|b bs IH]; cbn [hex list_ascii_of_string]; [constructor|].
  pose proof (Byte.to_N_bounded b) as Hb.
  assert (N.to_nat (Byte.to_N b) < 256) as Hlt by lia.
  constructor; [|constructor; [|exact IH]].
  - apply hexdigit_lower. apply Nat.Div0.div_lt_upper_bound. lia.
  - apply hexdigit_lower. apply Nat.mod_upper_bound. lia.
Qed.

(** Decoding what [hex] wrote gives the bytes back. *)
Lemma fromhex_hex bs : fromhex (hex bs) = Some bs.
Proof.
  induction bs as [|b bs IH]; [reflexivity|].
  cbn [hex fromhex].
  pose proof (Byte.to_N_bounded b) as Hb.
  assert (N.to_nat (Byte.to_N b) < 256) as Hlt by lia.
  rewrite !digit_value_hexdigit, IH;
    [| apply Nat.mod_upper_bound; lia
     | apply Nat.Div0.div_lt_upper_bound; lia].
  rewrite <- Nat.div_mod_eq, N2Nat.id, Byte.of_to_N. reflexivity.
Qed.

(** [bytes([0x00, 0x0f, 0xa5, 0xff]).hex() == '000fa5ff'] *)
Example hex_known_answer : hex [x00; x0f; xa5; xff] = "000fa5ff".
Proof. reflexivity. Qed.

(** ** The constructor *)
Section Constructor.
Context {L : Layout}.
Implicit Types (w : World) (m : Modal) (self item : addr) (kw : kwargs).

Lemma Modal_new_run kw w :
  Modal_new kw w = (inr (fresh (dom (modals w))), constructed_world kw w).
Proof.
  unfold Modal_new, __init__, constructed_world, constructed, chosen_custom_id.
  destruct (kw_custom_id kw) as [c|], (kw_children kw) as [cs|];
    unfold children_extend;
    cbv [bind ret urandom put_modal get_modal with_modals with_drawn
         modals objs entropy drawn];
    rewrite ?lookup_insert_eq; cbn; now rewrite ?insert_insert_eq.
Qed.

Lemma constructed_world_lookup kw w :
  modals (constructed_world kw w) !! fresh (dom (modals w)) =
    Some (constructed kw w).
Proof. cbn. apply lookup_insert_eq. Qed.

(** The constructor stores the children it is given as they come: in
    order, whatever their number and their type, and without touching
    them or the allocator. *)
Lemma Modal_new_children kw w cs :
  kw_children kw = Some cs ->
  children (base (constructed kw w)) = cs /\
  view_weights (base (constructed kw w)) = weights_empty /\
  objs (constructed_world kw w) = objs w.
Proof. intros Hcs. cbn. now rewrite Hcs. Qed.

(** C9.  Without a [custom_id] the constructor draws sixteen bytes from the
    entropy source and stores their hex encoding: a string of thirty-two
    characters, all lowercase hexadecimal digits, that reads back as the
    sixteen bytes drawn; and it records that no identifier was provided.
    With a [custom_id] it stores the given string as it is, draws nothing,
    and records that one was provided. *)
Theorem Modal_new_custom_id kw w :
  exists self m w',
    Modal_new kw w = (inr self, w') /\
    modals w' !! self = Some m /\
    match kw_custom_id kw with
    | None =>
        custom_id m = hex (map (entropy w) (seq (drawn w) 16)) /\
        fromhex (custom_id m) = Some (map (entropy w) (seq (drawn w) 16)) /\
        String.length (custom_id m) = 32 /\
        Forall (fun c => is_lower_hex c = true)
          (list_ascii_of_string (custom_id m)) /\
        _provided_custom_id m = false /\
        drawn w' = drawn w + 16
    | Some c =>
        custom_id m = c /\
        _provided_custom_id m = true /\
        drawn w' = drawn w
    end.
Proof.
  exists (fresh (dom (modals w))), (constructed kw w), (constructed_world kw w).
  split; [apply Modal_new_run|]. split; [apply constructed_world_lookup|].
  unfold constructed, constructed_world, chosen_custom_id;
    cbn [custom_id _provided_custom_id drawn].
  destruct (kw_custom_id kw) as [c|]; [now repeat split|].
  split; [reflexivity|]. split; [apply fromhex_hex|]. split.
  { rewrite hex_length, length_map, length_seq. reflexivity. }
  split; [apply hex_lower|]. now split.
Qed.

Lemma Modal_new_keeps n kw w :
  kw_children kw = None ->
  at_most n w -> at_most n (snd (Modal_new kw w)).
Proof.
  intros Hkw Hw. rewrite Modal_new_run. intros a m Ha. cbn in Ha.
  destruct (decide (a = fresh (dom (modals w)))) as [->|Hne].
  - rewrite lookup_insert_eq in Ha. injection Ha as <-.
    cbn. rewrite Hkw. cbn. lia.
  - rewrite lookup_insert_ne in Ha by congruence. now apply (Hw a).
Qed.

(** What the guard of [add_item] does guarantee: along any run of
    constructions without initial children and of [add_item] calls, no
    modal ever holds more than six children. *)
Lemma runs_keep_six ops w :
  Forall no_initial_children ops ->
  at_most 6 w -> at_most 6 (fold_left step ops w).
Proof.
  intros Hops. revert w. induction Hops as [|o ops Ho _ IH]; intros w Hw.
  - exact Hw.
  - cbn [fold_left]. apply IH. destruct o as [kw|self item]; cbn [step].
    + now apply Modal_new_keeps.
    + now apply add_item_keeps_six.
Qed.

End Constructor.

(** ** Subclass registration *)
Section Scan.
Import Registration.

Lemma scan_class_run children base :
  scan_class children base = children ++ map snd (tagged_entries base).
Proof.
  unfold scan_class, tagged_entries.
  revert children. induction (cls_dict base) as [|[name member] d IH];
    intros children; cbn [map fold_left snd].
  - now rewrite app_nil_r.
  - destruct (hasattr member model_type) eqn:Htag.
    + rewrite IH, filter_cons_True by exact Htag.
      cbn [map snd]. now rewrite <- app_assoc.
    + rewrite IH, filter_cons_False; [reflexivity|].
      cbn. congruence.
Qed.

Lemma scan_classes_run bases children :
  fold_left scan_class bases children =
    children ++ concat (map (fun c => map snd (tagged_entries c)) bases).
Proof.
  revert children. induction bases as [|c bases IH]; intros children; cbn.
  - now rewrite app_nil_r.
  - now rewrite IH, scan_class_run, <- app_assoc.
Qed.

Lemma scan_mro_run mro :
  scan_mro mro = concat (map (fun c => map snd (tagged_entries c)) (rev mro)).
Proof. unfold scan_mro. now rewrite scan_classes_run. Qed.

Lemma sum_list_with_rev {A} (f : A -> nat) l :
  sum_list_with f (rev l) = sum_list_with f l.
Proof.
  induction l as [|x l IH]; [reflexivity|].
  cbn. rewrite sum_list_with_app, IH. cbn. lia.
Qed.

Lemma rev_chain {A} (d b o : list A) s a :
  rev (d ++ s :: b ++ a :: o) = rev o ++ a :: rev b ++ s :: rev d.
Proof.
  rewrite rev_app_distr. cbn [rev]. rewrite rev_app_distr. cbn [rev].
  repeat (rewrite <- app_assoc; cbn [app]). reflexivity.
Qed.

Lemma concat_map_middle {A B} (f : A -> list B) l1 x l2 :
  concat (map f (l1 ++ x :: l2)) =
    concat (map f l1) ++ f x ++ concat (map f l2).
Proof. now rewrite map_app, concat_app. Qed.

Lemma length_scan_mro mro : length (scan_mro mro) = tagged_count mro.
Proof.
  rewrite scan_mro_run. unfold tagged_count.
  rewrite <- (sum_list_with_rev _ mro).
  induction (rev mro) as [|c l IH]; [reflexivity|].
  cbn. now rewrite length_app, length_map, IH.
Qed.

(** C6.  Defining a subclass whose chain declares more than five tagged
    members raises the [TypeError] at definition time (no list of children
    is stored for the class, so nothing can be constructed from it);
    with exactly five the definition goes through and the five members are
    stored. *)
Theorem init_subclass_cap mro :
  ((5 < tagged_count mro)%nat ->
     __init_subclass__ mro =
       inl (TypeError "View cannot have more than 5 children"))
  /\ (tagged_count mro = 5 ->
      exists cs, __init_subclass__ mro = inr cs /\ length cs = 5).
Proof.
  unfold __init_subclass__. rewrite length_scan_mro. split.
  - intros Hmany. apply Nat.ltb_lt in Hmany. now rewrite Hmany.
  - intros Hfive. rewrite Hfive. cbn. exists (scan_mro mro).
    split; [reflexivity|]. now rewrite length_scan_mro.
Qed.

(** C7, as the code has it.  The scan does not deduplicate: the stored list
    is the concatenation, oldest ancestor first, of the tagged members each
    class of the chain declares itself, and the cap is checked on its
    length.  So when a subclass overrides a tagged member of an ancestor,
    both the ancestor's member and the override are in the list, the
    ancestor's first, and each counts toward the cap. *)
Theorem init_subclass_keeps_overrides mro :
  __init_subclass__ mro =
    (if (5 <? tagged_count mro)%nat
     then inl (TypeError "View cannot have more than 5 children")
     else inr (concat (map (fun c => map snd (tagged_entries c)) (rev mro))))
  /\ (forall derived between older sub anc name f_sub f_anc cs,
        mro = derived ++ sub :: between ++ anc :: older ->
        (name, f_anc) ∈ tagged_entries anc ->
        (name, f_sub) ∈ tagged_entries sub ->
        __init_subclass__ mro = inr cs ->
        exists l1 l2 l3, cs = l1 ++ f_anc :: l2 ++ f_sub :: l3).
Proof.
  split.
  - unfold __init_subclass__. now rewrite length_scan_mro, scan_mro_run.
  - intros derived between older sub anc name f_sub f_anc cs
      -> Hanc Hsub Hrun.
    unfold __init_subclass__ in Hrun.
    destruct (5 <? _)%nat; [discriminate|]. injection Hrun as <-.
    rewrite scan_mro_run.
    apply list_elem_of_split in Hanc as (a1 & a2 & Hanc).
    apply list_elem_of_split in Hsub as (s1 & s2 & Hsub).
    rewrite rev_chain, !concat_map_middle, Hanc, Hsub, !map_app.
    cbn [map snd].
    exists (concat (map (fun c => map snd (tagged_entries c)) (rev older))
              ++ map snd a1),
           (map snd a2
              ++ concat (map (fun c => map snd (tagged_entries c)) (rev between))
              ++ map snd s1),
           (map snd s2
              ++ concat (map (fun c => map snd (tagged_entries c)) (rev derived))).
    repeat (rewrite <- app_assoc; cbn [app]). reflexivity.
Qed.

End Scan.

Lemma init_subclass_cap_witness :
  Registration.__init_subclass__ (Registration.mro_of Registration.Six) =
    inl (TypeError "View cannot have more than 5 children")
  /\ exists cs,
       Registration.__init_subclass__ (Registration.mro_of Registration.Five) =
         inr cs /\ length cs = 5.
Proof.
  split.
  - apply (proj1 (init_subclass_cap (Registration.mro_of Registration.Six))).
    vm_compute. lia.
  - apply (proj2 (init_subclass_cap (Registration.mro_of Registration.Five))).
    reflexivity.
Defined.

Lemma init_subclass_keeps_overrides_witness :
  exists l1 l2 l3,
    [Registration.callback "Survey.ask_name";
     Registration.callback "Survey.ask_age";
     Registration.callback "Survey.ask_city";
     Registration.callback "Redo.ask_name"] =
    l1 ++ Registration.callback "Survey.ask_name"
       :: l2 ++ Registration.callback "Redo.ask_name" :: l3.
Proof.
  apply (proj2 (init_subclass_keeps_overrides
                  (Registration.mro_of Registration.Redo))
           [] []
           [Registration.Modal_cls; Registration.View_cls; Registration.object_cls]
           Registration.Redo Registration.Survey "ask_name"
           (Registration.callback "Redo.ask_name")
           (Registration.callback "Survey.ask_name")).
  - reflexivity.
  - apply list_elem_of_In. vm_compute. tauto.
  - apply list_elem_of_In. vm_compute. tauto.
  - reflexivity.
Defined.

(** C7, as the claim words it, fails when a subclass overrides tagged
    members.  Overriding one callback of Survey leaves four entries where
    the mapping keyed by name has three; overriding all three makes six
    entries, and the definition is refused although only three names are
    declared. *)
Lemma init_subclass_counts_overrides_twice :
  Registration.__init_subclass__ (Registration.mro_of Registration.Redo) =
    inr [Registration.callback "Survey.ask_name";
         Registration.callback "Survey.ask_age";
         Registration.callback "Survey.ask_city";
         Registration.callback "Redo.ask_name"]
  /\ map snd (Registration.spec_scan_mro (Registration.mro_of Registration.Redo)) =
       [Registration.callback "Redo.ask_name";
        Registration.callback "Survey.ask_age";
        Registration.callback "Survey.ask_city"]
  /\ Registration.__init_subclass__ (Registration.mro_of Registration.Again) =
       inl (TypeError "View cannot have more than 5 children")
  /\ length (Registration.spec_scan_mro (Registration.mro_of Registration.Again)) = 3.
Proof. repeat split; vm_compute; reflexivity. Qed.

(** ** The capacity of a modal, on concrete runs *)

(** C1.  A modal that holds exactly five children does not refuse a further
    child for its number: the guard [len(self.children) > 5] is false at
    five, so an argument that is not an [Item] gets the [TypeError] of the
    next check and an item goes on to line 145, where the lookup of
    [self.__weights] raises [AttributeError]; neither call raises the
    [ValueError], which comes only once the modal holds six.  Adding a fifth
    item to a modal that holds four does not succeed either: it raises at
    line 145 and the modal keeps its four children. *)
Theorem add_item_five_children_pass_guard :
  fst (Sample.build_by_constructor [1; 2; 3; 4; 5]%positive Sample.world0) =
    inr 1%positive /\
  Sample.children_at_1 Sample.five_children = Some [1; 2; 3; 4; 5]%positive /\
  fst (add_item 1%positive 8%positive Sample.five_children) =
    inl (TypeError "expected Item not <class 'str'>") /\
  fst (add_item 1%positive 6%positive Sample.five_children) =
    inl (AttributeError "_Modal__weights") /\
  Sample.children_at_1 (snd (add_item 1%positive 6%positive Sample.five_children)) =
    Some [1; 2; 3; 4; 5]%positive /\
  fst (add_item 1%positive 8%positive Sample.six_children) =
    inl (ValueError "maximum number of children exceeded") /\
  fst (add_item 1%positive 7%positive Sample.six_children) =
    inl (ValueError "maximum number of children exceeded") /\
  Sample.children_at_1 Sample.four_children = Some [1; 2; 3; 4]%positive /\
  fst (add_item 1%positive 5%positive Sample.four_children) =
    inl (AttributeError "_Modal__weights") /\
  Sample.children_at_1 (snd (add_item 1%positive 5%positive Sample.four_children)) =
    Some [1; 2; 3; 4]%positive.
Proof.
  repeat split; vm_compute; reflexivity.
Qed.

(** C2.  The constructor does not go through [add_item]: it extends the
    list of children with what it is given.  Seven items are all kept, and
    the modal that results is one on which [add_item] itself raises the
    [ValueError] of the cap; an object that is not an [Item] is kept, where
    [add_item] raises the [TypeError]; and a child keeps the back-reference
    it had (none). *)
Theorem constructor_bypasses_add_item :
  fst (Sample.build_by_constructor [1; 2; 3; 4; 5; 6; 7]%positive Sample.world0) =
    inr 1%positive
  /\ Sample.children_at_1 Sample.seven_children =
       Some [1; 2; 3; 4; 5; 6; 7]%positive
  /\ fst (add_item 1%positive 8%positive Sample.seven_children) =
       inl (ValueError "maximum number of children exceeded")
  /\ fst (Sample.build_by_constructor [8]%positive Sample.world0) = inr 1%positive
  /\ Sample.children_at_1
       (snd (Sample.build_by_constructor [8]%positive Sample.world0)) =
       Some [8]%positive
  /\ fst (Sample.build_by_add_item [8]%positive Sample.world0) =
       inl (TypeError "expected Item not <class 'str'>")
  /\ Sample.view_of
       (snd (Sample.build_by_constructor [1]%positive Sample.world0)) 1%positive =
       Some None.
Proof.
  repeat split; vm_compute; reflexivity.
Qed.

(** C3.  The length of the children list is not bounded by five: the
    constructor keeps as many children as it is given, six or seven as
    well. *)
Theorem more_than_five_children_reachable :
  fst (Sample.build_by_constructor [1; 2; 3; 4; 5; 6]%positive Sample.world0) =
    inr 1%positive
  /\ length <$> Sample.children_at_1 Sample.six_children = Some 6
  /\ fst (Sample.build_by_constructor [1; 2; 3; 4; 5; 6; 7]%positive
            Sample.world0) = inr 1%positive
  /\ length <$> Sample.children_at_1 Sample.seven_children = Some 7.
Proof.
  repeat split; vm_compute; reflexivity.
Qed.

(** * Further properties of the methods *)

(** ** What [add_item] does and does not touch *)
Section AddItemEffects.
Context {L : Layout}.
Implicit Types (w : World) (m : Modal) (self item : addr).

(** [add_item] either raises in the world it was called in, or goes
    through all of its checks and leaves the world [added]. *)
Lemma add_item_result self item w :
  (exists e, add_item self item w = (inl e, w)) \/
  (exists m i wt i',
     modals w !! self = Some m /\
     (length (children (base m)) <= 5)%nat /\
     objs w !! item = Some (OItem i) /\
     weights_add_item (view_weights (base m)) i = inr (wt, i') /\
     add_item self item w = (inr tt, added self item m wt i' w)).
Proof.
  destruct (modals w !! self) as [m|] eqn:Hm.
  2:{ left. eexists. unfold add_item. now run_get. }
  destruct (decide (5 < length (children (base m)))%nat) as [Hfull|Hroom].
  { left. eexists. exact (add_item_full _ _ _ _ Hm Hfull). }
  assert (length (children (base m)) <= 5)%nat as Hle by lia.
  destruct (objs w !! item) as [[i|cls]|] eqn:Ho.
  - destruct (weights_add_item (view_weights (base m)) i) as [e|[wt i']] eqn:Hw.
    + left. eexists. exact (add_item_refused _ _ _ _ _ _ Hm Hle Ho Hw).
    + right. exists m, i, wt, i'. repeat split; try assumption.
      now apply add_item_placed with i.
  - left. eexists. exact (add_item_not_Item _ _ _ _ _ Hm Hle Ho).
  - left. eexists. exact (add_item_wild _ _ _ _ Hm Hle Ho).
Qed.

(** X2.  A call of [add_item] that raises, whatever it raises, leaves the
    world exactly as it found it: no child is appended, no back-reference
    is set and the allocator keeps its state. *)
Theorem add_item_raise_changes_nothing self item w e w' :
  add_item self item w = (inl e, w') -> w' = w.
Proof.
  intros Hrun.
  destruct (add_item_result self item w)
    as [[e' He]|(m & i & wt & i' & _ & _ & _ & _ & Hok)];
    rewrite Hrun in *; congruence.
Qed.

(** X3.  Once a modal holds more than five children it is saturated: every
    further call of [add_item] on it raises the [ValueError], whatever the
    argument, and a whole sequence of such calls leaves the world as it
    was. *)
Theorem add_item_saturated self w m items :
  modals w !! self = Some m ->
  (5 < length (children (base m)))%nat ->
  fold_left step (map (Add self) items) w = w /\
  Forall
    (fun item =>
       add_item self item w =
         (inl (ValueError "maximum number of children exceeded"), w))
    items.
Proof.
  intros Hm Hfull. induction items as [|item items [IHw IHe]].
  - split; [reflexivity | constructor].
  - pose proof (add_item_full self item w m Hm Hfull) as Hrun.
    split.
    + cbn [map fold_left step]. now rewrite Hrun.
    + now constructor.
Qed.

(** X10.  Whether it returns or raises, [add_item] keeps the modal it is
    called on: its identifier, the flag that the identifier was provided,
    its title, timeout and row are unchanged, the children it had are
    still there in the same order at the front of the list, and no byte is
    drawn from the entropy source. *)
Theorem add_item_keeps_identity self item w m :
  modals w !! self = Some m ->
  exists m',
    modals (snd (add_item self item w)) !! self = Some m' /\
    custom_id m' = custom_id m /\
    _provided_custom_id m' = _provided_custom_id m /\
    title m' = title m /\
    timeout (base m') = timeout (base m) /\
    row m' = row m /\
    children (base m) `prefix_of` children (base m') /\
    drawn (snd (add_item self item w)) = drawn w.
Proof.
  intros Hm.
  destruct (add_item_result self item w)
    as [[e He]|(m0 & i & wt & i' & Hm0 & _ & _ & _ & Hok)].
  - rewrite He. exists m. now repeat split.
  - rewrite Hok. assert (m0 = m) as -> by congruence.
    eexists. split; [apply lookup_insert_eq|].
    repeat split. cbn. now apply prefix_app_r.
Qed.

End AddItemEffects.



Lemma add_item_raise_changes_nothing_witness :
  Sample.world_with (Sample.modal_with [1; 2]%positive None None true) =
  Sample.world_with (Sample.modal_with [1; 2]%positive None None true).
Proof.
  apply (add_item_raise_changes_nothing (L := Shipped.layout)
           1%positive 8%positive
           (Sample.world_with (Sample.modal_with [1; 2]%positive None None true))
           (TypeError "expected Item not <class 'str'>")).
  reflexivity.
Defined.

Lemma add_item_saturated_witness :
  fold_left step (map (Add 1%positive) [7; 8; 9]%positive)
    (Sample.world_with
       (Sample.modal_with [1; 2; 3; 4; 5; 6]%positive None None true)) =
    Sample.world_with
      (Sample.modal_with [1; 2; 3; 4; 5; 6]%positive None None true).
Proof.
  apply (add_item_saturated (L := Shipped.layout) 1%positive
           (Sample.world_with
              (Sample.modal_with [1; 2; 3; 4; 5; 6]%positive None None true))
           (Sample.modal_with [1; 2; 3; 4; 5; 6]%positive None None true)
           [7; 8; 9]%positive eq_refl).
  cbn. lia.
Defined.

Lemma add_item_keeps_identity_witness :
  exists m',
    modals
      (snd (add_item 1%positive 3%positive
              (Sample.world_with
                 (Sample.modal_with [1; 2]%positive (Some "Form") None true))))
      !! 1%positive = Some m' /\
    custom_id m' = "order-form" /\ title m' = Some "Form".
Proof.
  destruct (add_item_keeps_identity (L := Shipped.layout)
              1%positive 3%positive
              (Sample.world_with
                 (Sample.modal_with [1; 2]%positive (Some "Form") None true))
              (Sample.modal_with [1; 2]%positive (Some "Form") None true)
              eq_refl)
    as (m' & Hm' & Hid & _ & Htitle & _).
  exists m'. now repeat split.
Defined.

(** ** Construction *)
Section ConstructionEffects.
Context {L : Layout}.
Implicit Types (w : World) (m : Modal) (self item : addr) (kw : kwargs).

(** X5.  The constructor never raises.  It returns an address at which no
    modal was before, stores there the timeout, title and row it was given
    and the children in the order given (none when the argument is
    missing), and leaves every other modal and every object as it was. *)
Theorem Modal_new_fresh kw w :
  exists self m w',
    Modal_new kw w = (inr self, w') /\
    modals w !! self = None /\
    modals w' !! self = Some m /\
    timeout (base m) = kw_timeout kw /\
    title m = kw_title kw /\
    row m = kw_row kw /\
    children (base m) = default [] (kw_children kw) /\
    (forall a, a <> self -> modals w' !! a = modals w !! a) /\
    objs w' = objs w.
Proof.
  exists (fresh (dom (modals w))), (constructed kw w), (constructed_world kw w).
  split; [apply Modal_new_run|].
  split; [apply not_elem_of_dom, is_fresh|].
  split; [apply constructed_world_lookup|].
  repeat split. intros a Ha. cbn. now rewrite lookup_insert_ne.
Qed.

(** X4.  Starting from a world without modals, however constructions
    without initial children and calls of [add_item] (returning or
    raising) are interleaved, no modal ever holds more than six
    children. *)
Theorem children_never_exceed_six ops w :
  modals w = ∅ ->
  Forall no_initial_children ops ->
  at_most 6 (fold_left step ops w).
Proof.
  intros Hempty Hops. apply runs_keep_six; [exact Hops|].
  intros a m Ha. rewrite Hempty, lookup_empty in Ha. discriminate.
Qed.

(** X6.  A modal that has just been constructed from well-typed children is
    persistent exactly when the constructor was called with [timeout=None]
    and with a [custom_id], and every child given reports itself
    persistent; with the default timeout, or without a [custom_id], it is
    not. *)
Theorem Modal_new_is_persistent kw w :
  Forall (is_Item w) (default [] (kw_children kw)) ->
  exists self w' b,
    Modal_new kw w = (inr self, w') /\
    is_persistent self w' = (inr b, w') /\
    (b = true <->
       kw_timeout kw = None /\
       kw_custom_id kw <> None /\
       Forall (persistent_child w) (default [] (kw_children kw))).
Proof.
  intros Hty.
  exists (fresh (dom (modals w))), (constructed_world kw w).
  pose proof (constructed_world_lookup kw w) as Hm.
  assert (Forall (is_Item (constructed_world kw w))
            (children (base (constructed kw w)))) as Hty' by exact Hty.
  destruct (all_persistent_run _ _ Hty') as (b & Hrun & Hb).
  unfold is_persistent. run_get.
  cbn [constructed base timeout _provided_custom_id].
  destruct (kw_timeout kw) as [t|].
  { exists false. split; [apply Modal_new_run|]. split; [reflexivity|].
    split; [discriminate|]. now intros [? _]. }
  destruct (kw_custom_id kw) as [c|].
  - exists b. split; [apply Modal_new_run|]. split; [exact Hrun|].
    rewrite Hb. cbn. split; [now intros ?|now intros (_ & _ & ?)].
  - exists false. split; [apply Modal_new_run|]. split; [reflexivity|].
    split; [discriminate|]. now intros (_ & ? & _).
Qed.

(** X9.  Construction followed by serialization: the payload of a modal that
    has just been constructed carries the [custom_id] given to the
    constructor (or, without one, the hex encoding of the sixteen bytes
    drawn), and a [title] key exactly as the title argument was given. *)
Theorem Modal_new_to_callback_data kw w :
  exists self w' p,
    Modal_new kw w = (inr self, w') /\
    to_callback_data self w' = (inr p, w') /\
    p !! "custom_id" =
      Some (VStr match kw_custom_id kw with
                 | Some c => c
                 | None => hex (map (entropy w) (seq (drawn w) 16))
                 end) /\
    p !! "title" = VStr <$> kw_title kw.
Proof.
  exists (fresh (dom (modals w))), (constructed_world kw w).
  pose proof (constructed_world_lookup kw w) as Hm.
  eexists. split; [apply Modal_new_run|].
  split; [exact (to_callback_data_run _ _ _ Hm)|].
  cbv zeta. cbn [constructed title custom_id]. unfold chosen_custom_id.
  destruct (kw_title kw) as [t|]; cbn [fmap option_fmap option_map];
    split; now simplify_map_eq.
Qed.

End ConstructionEffects.

Lemma children_never_exceed_six_witness :
  at_most 6
    (fold_left step
       [New default_kwargs; Add 1%positive 1%positive; Add 1%positive 8%positive;
        New default_kwargs; Add 2%positive 1%positive]
       Sample.world0).
Proof.
  apply (children_never_exceed_six (L := Shipped.layout)).
  - reflexivity.
  - repeat constructor.
Defined.

Lemma Modal_new_is_persistent_witness :
  exists self w' b,
    Modal_new (Sample.kwargs_children [1; 9]%positive) Sample.world0 =
      (inr self, w') /\
    is_persistent self w' = (inr b, w') /\
    (b = true <->
       kw_timeout (Sample.kwargs_children [1; 9]%positive) = None /\
       kw_custom_id (Sample.kwargs_children [1; 9]%positive) <> None /\
       Forall (persistent_child Sample.world0)
         (default [] (kw_children (Sample.kwargs_children [1; 9]%positive)))).
Proof.
  apply (Modal_new_is_persistent (L := Shipped.layout)
           (Sample.kwargs_children [1; 9]%positive) Sample.world0).
  repeat constructor; eexists; reflexivity.
Defined.

(** ** How [is_persistent] consults the children *)
Section PersistenceOrder.
Context {L : Layout}.
Implicit Types (w : World) (m : Modal) (self item : addr).

Lemma Item_is_persistent_frame c w : snd (Item_is_persistent c w) = w.
Proof.
  unfold Item_is_persistent, bind, get_obj.
  now destruct (objs w !! c) as [[i|cls]|].
Qed.

Lemma all_persistent_frame cs w : snd (all_persistent cs w) = w.
Proof.
  induction cs as [|c cs IH]; [reflexivity|].
  cbn [all_persistent]. unfold bind.
  pose proof (Item_is_persistent_frame c w) as Hc.
  destruct (Item_is_persistent c w) as [[e|[|]] w1]; cbn in Hc; subst w1;
    [reflexivity | exact IH | reflexivity].
Qed.

Lemma all_persistent_stops pre c post w i :
  Forall (persistent_child w) pre ->
  objs w !! c = Some (OItem i) ->
  item_is_persistent i = false ->
  all_persistent (pre ++ c :: post) w = (inr false, w).
Proof.
  intros Hpre Hc Hp. induction Hpre as [|a pre (j & Hj & Hjp) _ IH];
    cbn [app all_persistent].
  - rewrite (bind_inr _ _ _ _ _ (Item_is_persistent_run _ _ _ Hc)).
    now rewrite Hp.
  - rewrite (bind_inr _ _ _ _ _ (Item_is_persistent_run _ _ _ Hj)).
    now rewrite Hjp.
Qed.

(** X7.  With a timeout configured, or without a provided [custom_id],
    [is_persistent] answers [False] without consulting any child: the
    answer does not depend on what the children are, not even on their
    being items. *)
Theorem is_persistent_without_children self w m :
  modals w !! self = Some m ->
  timeout (base m) <> None \/ _provided_custom_id m = false ->
  is_persistent self w = (inr false, w).
Proof.
  intros Hm Hwhy. unfold is_persistent. run_get.
  destruct (timeout (base m)) as [t|]; [reflexivity|].
  destruct Hwhy as [Hne|Hp]; [congruence|]. now rewrite Hp.
Qed.

(** X8.  The children are consulted in order and only up to the first one
    that is not persistent: when the children before it are persistent
    items, the answer is [False] whatever comes after it. *)
Theorem is_persistent_first_volatile self w m pre c post i :
  modals w !! self = Some m ->
  timeout (base m) = None ->
  _provided_custom_id m = true ->
  children (base m) = pre ++ c :: post ->
  Forall (persistent_child w) pre ->
  objs w !! c = Some (OItem i) ->
  item_is_persistent i = false ->
  is_persistent self w = (inr false, w).
Proof.
  intros Hm Ht Hp Hcs Hpre Hc Hv. unfold is_persistent. run_get.
  rewrite Ht, Hp, Hcs. now apply all_persistent_stops with i.
Qed.

(** X15.  [is_persistent] never writes: whether it answers or raises, and
    whatever the children are, the world after the call is the world
    before it. *)
Theorem is_persistent_frame self w : snd (is_persistent self w) = w.
Proof.
  unfold is_persistent, bind, get_modal.
  destruct (modals w !! self) as [m|]; [|reflexivity].
  destruct (timeout (base m)); [reflexivity|].
  destruct (_provided_custom_id m); [|reflexivity].
  apply all_persistent_frame.
Qed.

End PersistenceOrder.

Lemma is_persistent_without_children_witness :
  is_persistent 1%positive
    (Sample.world_with (Sample.modal_with [8; 1]%positive None None false)) =
    (inr false,
     Sample.world_with (Sample.modal_with [8; 1]%positive None None false)).
Proof.
  apply (is_persistent_without_children (L := Shipped.layout) 1%positive
           (Sample.world_with (Sample.modal_with [8; 1]%positive None None false))
           (Sample.modal_with [8; 1]%positive None None false) eq_refl).
  right. reflexivity.
Defined.

Lemma is_persistent_first_volatile_witness :
  is_persistent 1%positive
    (Sample.world_with (Sample.modal_with [1; 9; 8]%positive None None true)) =
    (inr false,
     Sample.world_with (Sample.modal_with [1; 9; 8]%positive None None true)).
Proof.
  apply (is_persistent_first_volatile (L := Shipped.layout) 1%positive
           (Sample.world_with (Sample.modal_with [1; 9; 8]%positive None None true))
           (Sample.modal_with [1; 9; 8]%positive None None true)
           [1%positive] 9%positive [8%positive] Sample.volatile
           eq_refl eq_refl eq_refl eq_refl).
  - repeat constructor. exists Sample.button. split; reflexivity.
  - reflexivity.
  - reflexivity.
Defined.

(** ** Generated identifiers *)

Lemma hexval_hexdigit n : n < 16 -> hexval (hexdigit n) = n.
Proof.
  intros Hn. do 16 (destruct n as [|n]; [reflexivity|]). lia.
Qed.

Lemma byte_of_nibbles (a b : byte) :
  hexdigit (N.to_nat (Byte.to_N a) / 16) = hexdigit (N.to_nat (Byte.to_N b) / 16) ->
  hexdigit (N.to_nat (Byte.to_N a) mod 16) =
    hexdigit (N.to_nat (Byte.to_N b) mod 16) ->
  a = b.
Proof.
  intros Hhi Hlo.
  pose proof (Byte.to_N_bounded a) as Ha.
  pose proof (Byte.to_N_bounded b) as Hb.
  set (x := N.to_nat (Byte.to_N a)) in *.
  set (y := N.to_nat (Byte.to_N b)) in *.
  assert (x < 256) as Hx by (subst x; lia).
  assert (y < 256) as Hy by (subst y; lia).
  assert (x / 16 = y / 16) as Hq.
  { rewrite <- (hexval_hexdigit (x / 16)), <- (hexval_hexdigit (y / 16)), Hhi;
      [reflexivity | |]; apply Nat.Div0.div_lt_upper_bound; lia. }
  assert (x mod 16 = y mod 16) as Hr.
  { rewrite <- (hexval_hexdigit (x mod 16)), <- (hexval_hexdigit (y mod 16)), Hlo;
      [reflexivity | |]; apply Nat.mod_upper_bound; lia. }
  assert (x = y) as Hxy.
  { rewrite (Nat.div_mod_eq x 16), (Nat.div_mod_eq y 16). now rewrite Hq, Hr. }
  assert (Byte.to_N a = Byte.to_N b) as HN by (subst x y; lia).
  pose proof (Byte.of_to_N a) as Hoa. rewrite HN, Byte.of_to_N in Hoa.
  congruence.
Qed.

Lemma hex_inj a b : hex a = hex b -> a = b.
Proof.
  revert b. induction a as [|x a IH]; intros [|y b] Heq;
    cbn [hex] in Heq; try discriminate; [reflexivity|].
  injection Heq as Hhi Hlo Hrest.
  f_equal; [now apply byte_of_nibbles | now apply IH].
Qed.

Section GeneratedIds.
Context {L : Layout}.
Implicit Types (w : World) (kw : kwargs).

(** X11.  Two modals constructed one after the other without a [custom_id]
    are two objects, the first is still there after the second
    construction, and their identifiers encode consecutive windows of
    sixteen bytes of the entropy source; the encoding loses nothing, so
    the identifiers are equal only if the two windows are. *)
Theorem successive_generated_ids kw1 kw2 w :
  kw_custom_id kw1 = None ->
  kw_custom_id kw2 = None ->
  exists s1 w1 s2 w2 m1 m2,
    Modal_new kw1 w = (inr s1, w1) /\
    Modal_new kw2 w1 = (inr s2, w2) /\
    s1 <> s2 /\
    modals w2 !! s1 = Some m1 /\
    modals w2 !! s2 = Some m2 /\
    custom_id m1 = hex (map (entropy w) (seq (drawn w) 16)) /\
    custom_id m2 = hex (map (entropy w) (seq (drawn w + 16) 16)) /\
    (custom_id m1 = custom_id m2 <->
       map (entropy w) (seq (drawn w) 16) =
         map (entropy w) (seq (drawn w + 16) 16)).
Proof.
  intros Hk1 Hk2.
  set (s1 := fresh (dom (modals w))).
  set (w1 := constructed_world kw1 w).
  set (s2 := fresh (dom (modals w1))).
  set (w2 := constructed_world kw2 w1).
  assert (s1 <> s2) as Hne.
  { intros Heq. apply (is_fresh (dom (modals w1))). fold s2. rewrite <- Heq.
    apply elem_of_dom. exists (constructed kw1 w).
    apply constructed_world_lookup. }
  exists s1, w1, s2, w2, (constructed kw1 w), (constructed kw2 w1).
  split; [apply Modal_new_run|]. split; [apply Modal_new_run|].
  split; [exact Hne|].
  split.
  { subst w2. cbn [constructed_world modals]. fold s2.
    rewrite lookup_insert_ne by congruence. apply constructed_world_lookup. }
  split; [apply constructed_world_lookup|].
  assert (custom_id (constructed kw1 w) =
            hex (map (entropy w) (seq (drawn w) 16))) as Hc1.
  { cbn [constructed custom_id]. unfold chosen_custom_id. now rewrite Hk1. }
  assert (custom_id (constructed kw2 w1) =
            hex (map (entropy w) (seq (drawn w + 16) 16))) as Hc2.
  { cbn [constructed custom_id]. unfold chosen_custom_id. rewrite Hk2.
    subst w1. cbn [constructed_world entropy drawn]. now rewrite Hk1. }
  split; [exact Hc1|]. split; [exact Hc2|].
  rewrite Hc1, Hc2. split; [apply hex_inj | now intros ->].
Qed.

End GeneratedIds.

Lemma successive_generated_ids_witness :
  exists s1 w1 s2 w2 m1 m2,
    Modal_new default_kwargs Sample.world0 = (inr s1, w1) /\
    Modal_new default_kwargs w1 = (inr s2, w2) /\
    s1 <> s2 /\
    modals w2 !! s1 = Some m1 /\
    modals w2 !! s2 = Some m2 /\
    custom_id m1 =
      hex (map (entropy Sample.world0) (seq (drawn Sample.world0) 16)) /\
    custom_id m2 =
      hex (map (entropy Sample.world0) (seq (drawn Sample.world0 + 16) 16)) /\
    (custom_id m1 = custom_id m2 <->
       map (entropy Sample.world0) (seq (drawn Sample.world0) 16) =
         map (entropy Sample.world0) (seq (drawn Sample.world0 + 16) 16)).
Proof.
  apply (successive_generated_ids (L := Shipped.layout)
           default_kwargs default_kwargs Sample.world0); reflexivity.
Defined.

(** ** What subclass registration collects *)
Section ScanContents.
Import Registration.

Lemma scan_mro_cons c mro :
  scan_mro (c :: mro) = scan_mro mro ++ map snd (tagged_entries c).
Proof.
  rewrite !scan_mro_run. cbn [rev].
  rewrite map_app, concat_app. cbn [map concat]. now rewrite app_nil_r.
Qed.

Lemma elem_of_scan_mro f mro :
  f ∈ scan_mro mro <->
  exists c name,
    c ∈ mro /\ (name, f) ∈ cls_dict c /\ hasattr f model_type = true.
Proof.
  rewrite scan_mro_run, list_elem_of_In, in_concat. split.
  - intros (l & Hl & Hf). apply in_map_iff in Hl as (c & <- & Hc).
    apply in_map_iff in Hf as ([name f'] & Hsnd & He). cbn in Hsnd. subst f'.
    apply list_elem_of_In, list_elem_of_filter in He as [Htag He].
    exists c, name. split; [|now split].
    now apply list_elem_of_In, in_rev.
  - intros (c & name & Hc & He & Htag).
    exists (map snd (tagged_entries c)). split.
    + apply in_map_iff. exists c. split; [reflexivity|].
      now apply in_rev; rewrite rev_involutive; apply list_elem_of_In.
    + apply in_map_iff. exists (name, f). split; [reflexivity|].
      apply list_elem_of_In, list_elem_of_filter. now split.
Qed.

(** X12.  When the definition of a subclass goes through, the stored list
    holds exactly the tagged members of the chain: every member of the list
    is declared by some class of the chain and has the attribute, and every
    member with the attribute that some class of the chain declares is in
    the list.  Members without the attribute are never collected. *)
Theorem init_subclass_collects_exactly_tagged mro cs f :
  __init_subclass__ mro = inr cs ->
  f ∈ cs <->
  exists c name,
    c ∈ mro /\ (name, f) ∈ cls_dict c /\ hasattr f model_type = true.
Proof.
  unfold __init_subclass__. destruct (5 <? _)%nat; [discriminate|].
  intros [= <-]. apply elem_of_scan_mro.
Qed.

(** X13.  With single inheritance (the chain of the subclass is the subclass
    followed by the chain of its parent), a subclass that is accepted
    stores the list of its parent followed by the tagged members it
    declares itself, so that the parent was accepted too; and a subclass
    of a class that was refused is refused, whatever it declares. *)
Theorem init_subclass_extends_parent c mro :
  (forall cs,
     __init_subclass__ (c :: mro) = inr cs ->
     exists ps,
       __init_subclass__ mro = inr ps /\
       cs = ps ++ map snd (tagged_entries c))
  /\ (forall e,
        __init_subclass__ mro = inl e ->
        __init_subclass__ (c :: mro) = inl e).
Proof.
  unfold __init_subclass__. rewrite scan_mro_cons, length_app.
  destruct (5 <? length (scan_mro mro))%nat eqn:Hparent.
  - apply Nat.ltb_lt in Hparent.
    assert ((5 <? length (scan_mro mro)
                  + length (map snd (tagged_entries c)))%nat = true) as ->
      by (apply Nat.ltb_lt; lia).
    split; [discriminate | now intros e [= <-]].
  - split; [|discriminate].
    intros cs.
    destruct (5 <? length (scan_mro mro)
                   + length (map snd (tagged_entries c)))%nat; [discriminate|].
    intros Hcs. injection Hcs as Hcs. subst cs.
    exists (scan_mro mro). now split.
Qed.

End ScanContents.

Lemma init_subclass_collects_exactly_tagged_witness :
  Registration.callback "Five.ask_pet" ∈
    [Registration.callback "Survey.ask_name";
     Registration.callback "Survey.ask_age";
     Registration.callback "Survey.ask_city";
     Registration.callback "Five.ask_job";
     Registration.callback "Five.ask_pet"] <->
  exists c name,
    c ∈ Registration.mro_of Registration.Five /\
    (name, Registration.callback "Five.ask_pet") ∈ Registration.cls_dict c /\
    Registration.hasattr (Registration.callback "Five.ask_pet")
      Registration.model_type = true.
Proof.
  apply (init_subclass_collects_exactly_tagged
           (Registration.mro_of Registration.Five)).
  reflexivity.
Defined.

Lemma init_subclass_extends_parent_witness :
  (exists ps,
     Registration.__init_subclass__
       [Registration.Survey; Registration.Modal_cls; Registration.View_cls;
        Registration.object_cls] = inr ps /\
     [Registration.callback "Survey.ask_name";
      Registration.callback "Survey.ask_age";
      Registration.callback "Survey.ask_city";
      Registration.callback "Five.ask_job";
      Registration.callback "Five.ask_pet"] =
       ps ++ map snd (Registration.tagged_entries Registration.Five))
  /\ Registration.__init_subclass__
       [Registration.Redo; Registration.Again; Registration.Survey;
        Registration.Modal_cls; Registration.View_cls; Registration.object_cls] =
       inl (TypeError "View cannot have more than 5 children").
Proof.
  split.
  - apply (proj1 (init_subclass_extends_parent Registration.Five
                    [Registration.Survey; Registration.Modal_cls;
                     Registration.View_cls; Registration.object_cls])).
    reflexivity.
  - apply (proj2 (init_subclass_extends_parent Registration.Redo
                    [Registration.Again; Registration.Survey;
                     Registration.Modal_cls; Registration.View_cls;
                     Registration.object_cls])).
    reflexivity.
Defined.
